(** * Crypto.Random.OSRNG.posix: the OS entropy source for POSIX systems

    A shallow embedding of [lib/Crypto/Random/OSRNG/posix.py] (Python 2
    semantics: [str] is a byte string, [long] and [int] are both integers)
    and the verification of its read/close contract.

    The file object returned by [open(name, "rb", 0)] belongs to the
    platform, not to the module: it is kept abstract in the class [Posix]
    and every theorem holds for all of its instances.  A scripted mock
    device instantiates it for the concrete examples. *)

From Stdlib Require Import ZArith List String Ascii Bool Lia DecimalString.
From Stdlib Require Import Strings.Byte.
Import ListNotations.
Local Open Scope string_scope.
Local Open Scope list_scope.
Local Open Scope Z_scope.

(** ** Python values and exceptions *)

(** A byte string ([str] in Python 2). *)
Definition bytes := list byte.

(** [len(data)] *)
Definition len (data : bytes) : Z := Z.of_nat (List.length data).

(** [data == data2] on byte strings *)
Fixpoint bytes_eqb (a b : bytes) : bool :=
  match a, b with
  | [], [] => true
  | x :: a', y :: b' => Byte.eqb x y && bytes_eqb a' b'
  | _, _ => false
  end.

(** The exceptions that the module raises or lets through. *)
Inductive exn : Type :=
| ValueError (msg : string)
| TypeError (msg : string)
| AssertionError (msg : string)
| NotImplementedError (msg : string)
| IOError (errno : Z)
| OtherError (cls : string).

(** [errno.EINTR] *)
Definition EINTR : Z := 4.

(** The objects that a caller can pass as the argument [N] of [read]. *)
Inductive PyVal : Type :=
| PyInt (z : Z)
| PyLong (z : Z)
| PyBool (b : bool)
| PyFloat (mantissa exponent : Z)
| PyStr (s : string)
| PyNone.

(** [isinstance(N, (long, int))]: the integer behind [N] when the test
    succeeds.  [bool] is a subclass of [int]. *)
Definition as_integer (N : PyVal) : option Z :=
  match N with
  | PyInt z | PyLong z => Some z
  | PyBool b => Some (if b then 1 else 0)
  | PyFloat _ _ | PyStr _ | PyNone => None
  end.

Definition isinstance_integer (N : PyVal) : bool :=
  match as_integer N with Some _ => true | None => false end.

(** ["%d" % z] *)
Definition fmt_d (z : Z) : string := NilZero.string_of_int (Z.to_int z).

(** ["%s produced truncated output (requested %d, got %d)" % (name, N, got)] *)
Definition truncated_msg (name : string) (N got : Z) : string :=
  (name ++ " produced truncated output (requested " ++ fmt_d N
        ++ ", got " ++ fmt_d got ++ ")")%string.

(** ** Computations on an object: state, exceptions, divergence *)

Inductive outcome (S A : Type) : Type :=
| Return (a : A) (s : S)
| Raise (e : exn) (s : S)
| Diverge.
Arguments Return {S A} a s.
Arguments Raise {S A} e s.
Arguments Diverge {S A}.

Definition M (S A : Type) : Type := S -> outcome S A.

Definition ret {S A} (a : A) : M S A := fun s => Return a s.
Definition raise {S A} (e : exn) : M S A := fun s => Raise e s.
Definition bind {S A B} (c : M S A) (k : A -> M S B) : M S B :=
  fun s => match c s with
           | Return a s' => k a s'
           | Raise e s' => Raise e s'
           | Diverge => Diverge
           end.
Definition get {S} : M S S := fun s => Return s s.
Definition modify {S} (f : S -> S) : M S unit := fun s => Return tt (f s).

Declare Scope py_scope.
Delimit Scope py_scope with py.
Notation "x <- c ;; k" := (bind c (fun x => k))
  (at level 61, c at next level, right associativity) : py_scope.
Notation "c ;;; k" := (bind c (fun _ => k))
  (at level 61, right associativity) : py_scope.
Local Open Scope py_scope.

(** The state in which a computation stops, when it stops. *)
Definition final_state {S A} (o : outcome S A) : option S :=
  match o with
  | Return _ s | Raise _ s => Some s
  | Diverge => None
  end.

(** ** The platform: Python file objects on a POSIX system *)

(** What [f.read(k)] can do on an unbuffered file object. *)
Inductive read_result : Type :=
| RBytes (d : bytes)
| RNone
| RRaise (e : exn).

Class Posix : Type := {
  (** the state of an open file object *)
  file : Type;
  (** [open(name, "rb", 0)] *)
  py_open : string -> exn + file;
  (** [os.fstat(f.fileno())[stat.ST_MODE]] *)
  fstat_mode : file -> Z;
  (** [f.read(k)] *)
  file_read : file -> Z -> read_result * file;
  (** [f.close()]; closing a file that was opened for reading is taken
      not to fail *)
  file_close : file -> file;
  (** [repr(s)], as used by ["%r" % (s,)] *)
  repr : string -> string
}.

(** [stat.S_ISCHR(mode)], from the standard [stat] module:
    [S_IFMT(mode) == S_IFCHR] with [S_IFMT(mode) = mode & 0o170000] and
    [S_IFCHR = 0o020000]. *)
Definition S_IFMT (mode : Z) : Z := Z.land mode 61440.
Definition S_IFCHR : Z := 8192.
Definition S_ISCHR (mode : Z) : bool := S_IFMT mode =? S_IFCHR.

(** The calls made on the file object are recorded next to its state, so
    that "no device I/O" is a statement about the record. *)
Inductive io_event : Type :=
| EvRead (k : Z) (r : read_result)
| EvClose.

(** The bytes that the recorded reads handed over, in order. *)
Fixpoint delivered (evs : list io_event) : bytes :=
  match evs with
  | [] => []
  | EvRead _ (RBytes d) :: evs' => d ++ delivered evs'
  | _ :: evs' => delivered evs'
  end.

(** The last recorded read found nothing: [None] or an empty string. *)
Definition starved (evs : list io_event) : Prop :=
  exists evs0 k r,
    evs = evs0 ++ [EvRead k r] /\ (r = RNone \/ r = RBytes []).

(** The number of times the file object was closed. *)
Fixpoint count_closes (evs : list io_event) : nat :=
  match evs with
  | [] => O
  | EvClose :: evs' => S (count_closes evs')
  | EvRead _ _ :: evs' => count_closes evs'
  end.

Section Channel.
Context {P : Posix}.

Record chan : Type := mkChan { fobj : file; io_log : list io_event }.

Definition chan_read (c : chan) (k : Z) : read_result * chan :=
  let (r, f') := file_read (fobj c) k in
  (r, {| fobj := f'; io_log := io_log c ++ [EvRead k r] |}).

Definition chan_close (c : chan) : chan :=
  {| fobj := file_close (fobj c); io_log := io_log c ++ [EvClose] |}.

(** The [while] loop of [DevURandomRNG._read]; [fuel] bounds the number
    of iterations. *)
Fixpoint _read_loop (fuel : nat) (N : Z) (data : bytes) (c : chan)
  : outcome chan bytes :=
  match fuel with
  | O => Diverge
  | S fuel' =>
    if len data <? N then
      match chan_read c (N - len data) with
      | (RRaise e, c') =>
          match e with
          | IOError errno =>
              if errno =? EINTR then _read_loop fuel' N data c'
              else Raise e c'
          | _ => Raise e c'
          end
      | (RNone, c') => Return data c'
      | (RBytes d, c') =>
          if len d =? 0 then Return data c'
          else _read_loop fuel' N (data ++ d) c'
      end
    else Return data c
  end.

(** A device on which signals cannot interrupt reads for ever: each
    interrupted read uses up some of a finite budget, and no read that
    hands over bytes adds to it. *)
Definition interrupts_bounded (budget : file -> nat) : Prop :=
  (forall f k f',
      file_read f k = (RRaise (IOError EINTR), f') ->
      (budget f' < budget f)%nat) /\
  (forall f k d f',
      file_read f k = (RBytes d, f') -> (budget f' <= budget f)%nat).

(** A device that never hands over more than it was asked for. *)
Definition reads_bounded : Prop :=
  forall f k d f', file_read f k = (RBytes d, f') -> len d <= k.
End Channel.

(** ** class BaseRNG *)

(** What [BaseRNG] expects of [self]: the attributes it reads and writes
    and the two methods a child class must implement. *)
Class RNG (Self : Type) : Type := {
  (** [self.closed] *)
  closed : Self -> bool;
  (** [self.closed = b] *)
  set_closed : bool -> Self -> Self;
  (** [self.name] *)
  name : Self -> string;
  (** [self._read(N)] *)
  _read : nat -> Z -> M Self bytes;
  (** [self._close()] *)
  _close : M Self unit
}.

(** The bodies [BaseRNG] itself gives to the two abstract methods. *)
Definition BaseRNG_read {Self} (N : Z) : M Self bytes :=
  raise (NotImplementedError "child class must implement this").
Definition BaseRNG_close {Self} : M Self unit :=
  raise (NotImplementedError "child class must implement this").

Section BaseRNG.
Context {Self : Type} {R : RNG Self}.

Definition close : M Self unit :=
  self <- get ;;
  (if negb (closed self) then _close else ret tt) ;;;
  modify (set_closed true).

Definition flush : M Self unit := ret tt.

(** [read(self, N=-1)]; [fuel] is handed to [self._read]. *)
Definition read (fuel : nat) (N : PyVal) : M Self bytes :=
  self <- get ;;
  if closed self then raise (ValueError "I/O operation on closed file")
  else match as_integer N with
  | None => raise (TypeError "an integer is required")
  | Some n =>
    if n <? 0 then raise (ValueError "cannot read to end of infinite stream")
    else if n =? 0 then ret []
    else
      data <- _read fuel n ;;
      if negb (len data =? n) then
        self <- get ;;
        raise (AssertionError (truncated_msg (name self) n (len data)))
      else ret data
  end.

Definition _selftest (fuel : nat) : M Self unit :=
  data <- read fuel (PyInt 16) ;;
  if negb (len data =? 16) then raise (AssertionError "read truncated")
  else
    data2 <- read fuel (PyInt 16) ;;
    if bytes_eqb data data2
    then raise (AssertionError "OS RNG returned duplicate data")
    else ret tt.

Definition BaseRNG_init (fuel : nat) : M Self unit :=
  modify (set_closed false) ;;;
  _selftest fuel.

Definition __del__ : M Self unit := close.
Definition __enter__ : M Self unit := ret tt.
Definition __exit__ : M Self unit := close.

(** A caller's view of the object: a sequence of method calls, each one
    running to its end, by a return or by an exception that the caller
    handles. *)
Inductive call : Type :=
| CallRead (N : PyVal)
| CallFlush
| CallClose.

Definition do_call (fuel : nat) (c : call) : M Self unit :=
  match c with
  | CallRead N => read fuel N ;;; ret tt
  | CallFlush => flush
  | CallClose => close
  end.

Fixpoint after_calls (fuel : nat) (cs : list call) (self : Self)
  : option Self :=
  match cs with
  | [] => Some self
  | c :: cs' =>
      match final_state (do_call fuel c self) with
      | Some self' => after_calls fuel cs' self'
      | None => None
      end
  end.
End BaseRNG.

(** ** class DevURandomRNG(BaseRNG) *)

(** The value given to [self.name]: [devname], or ["/dev/urandom"] when
    [devname is None]. *)
Definition device_name (devname : option string) : string :=
  match devname with
  | None => "/dev/urandom"
  | Some d => d
  end.

Section DevURandomRNG.
Context {P : Posix}.

Record DevURandomRNG : Type := mkDev {
  dev_closed : bool;
  dev_name : string;
  __file : chan
}.

Definition set_file (c : chan) (self : DevURandomRNG) : DevURandomRNG :=
  {| dev_closed := dev_closed self; dev_name := dev_name self; __file := c |}.

Definition DevURandomRNG_close : M DevURandomRNG unit :=
  modify (fun self => set_file (chan_close (__file self)) self).

Definition DevURandomRNG_read (fuel : nat) (N : Z) : M DevURandomRNG bytes :=
  fun self =>
    match _read_loop fuel N [] (__file self) with
    | Return data c => Return data (set_file c self)
    | Raise e c => Raise e (set_file c self)
    | Diverge => Diverge
    end.

#[export] Instance DevURandomRNG_RNG : RNG DevURandomRNG := {
  closed := dev_closed;
  set_closed b self :=
    {| dev_closed := b; dev_name := dev_name self; __file := __file self |};
  name := dev_name;
  _read := DevURandomRNG_read;
  _close := DevURandomRNG_close
}.

(** How a constructor call ends: with the new object, with an exception
    (and the file object, when one had been opened), or not at all. *)
Inductive ctor_outcome : Type :=
| Constructed (self : DevURandomRNG)
| CtorRaise (e : exn) (f : option chan)
| CtorDiverge.

(** [DevURandomRNG.__init__(self, devname=None)].  [self.closed] does not
    exist before [BaseRNG.__init__] assigns it. *)
Definition DevURandomRNG_init (fuel : nat) (devname : option string)
  : ctor_outcome :=
  let name := device_name devname in
  match py_open name with
  | inl e => CtorRaise e None
  | inr f0 =>
    let f := {| fobj := f0; io_log := [] |} in
    let fmode := fstat_mode f0 in
    if negb (S_ISCHR fmode) then
      CtorRaise
        (TypeError (repr name ++ " is not a character special device")%string)
        (Some (chan_close f))
    else
      match BaseRNG_init fuel
              {| dev_closed := false; dev_name := name; __file := f |} with
      | Return _ self => Constructed self
      | Raise e self => CtorRaise e (Some (__file self))
      | Diverge => CtorDiverge
      end
  end.

(** [new]: every argument is passed on to the constructor. *)
Definition new (fuel : nat) (devname : option string) : ctor_outcome :=
  DevURandomRNG_init fuel devname.
End DevURandomRNG.

(** ** The error taxonomy of the specification, as raised by the code *)

(** use after close: line 77 *)
Definition ClosedHandleError : exn :=
  ValueError "I/O operation on closed file".
(** bad [N]: line 81 *)
Definition InvalidArgument : exn :=
  ValueError "cannot read to end of infinite stream".
(** fewer bytes than requested: line 86 *)
Definition TruncatedReadError (name : string) (requested got : Z) : exn :=
  AssertionError (truncated_msg name requested got).
(** a construction that ends in a failed assertion *)
Definition SelfTestError (e : exn) : Prop :=
  exists msg, e = AssertionError msg.
(** the device is of the wrong type: line 108 *)
Definition OpenError {P : Posix} (name : string) : exn :=
  TypeError (repr name ++ " is not a character special device")%string.

(** ** A scripted device, for the examples *)

Record mock_file : Type := mkMock {
  script : list read_result;
  mode : Z;
  closes : nat
}.

(** Each [read] consumes one entry of the script, whatever the size asked
    for; the end of the script is the end of the file. *)
Definition mock_read (f : mock_file) (k : Z) : read_result * mock_file :=
  match script f with
  | [] => (RBytes [], f)
  | r :: rest => (r, {| script := rest; mode := mode f; closes := closes f |})
  end.

Definition mock_close (f : mock_file) : mock_file :=
  {| script := script f; mode := mode f; closes := S (closes f) |}.

Definition MockPosix (fs : string -> exn + mock_file) : Posix := {|
  file := mock_file;
  py_open := fs;
  fstat_mode := mode;
  file_read := mock_read;
  file_close := mock_close;
  repr := fun s => ("'" ++ s ++ "'")%string
|}.

(** [st_mode] of a character device ([0o020666]) and of a regular file
    ([0o100644]). *)
Definition chr_mode : Z := 8630.
Definition reg_mode : Z := 33188.

(** A file system with one node, ["/dev/urandom"], of mode [m], whose
    reads follow [sc]; every other path fails with [ENOENT]. *)
Definition mock_fs (sc : list read_result) (m : Z) : string -> exn + mock_file :=
  fun path =>
    if String.eqb path "/dev/urandom" then inr (mkMock sc m O)
    else inl (IOError 2).

Definition mock_dev (sc : list read_result) (m : Z) : Posix :=
  MockPosix (mock_fs sc m).

(** An object over the scripted device, as [BaseRNG.__init__] would leave
    it if the script started at [sc]. *)
Definition mock_rng (sc : list read_result) (is_closed : bool)
  : @DevURandomRNG (mock_dev sc chr_mode) :=
  @mkDev (mock_dev sc chr_mode) is_closed "/dev/urandom"
         (@mkChan (mock_dev sc chr_mode) (mkMock sc chr_mode O) []).

(** [n] bytes, all equal to [b]. *)
Definition sample (n : nat) (b : byte) : bytes := repeat b n.

(** A read interrupted by a signal, then two bytes, then one. *)
Definition script_interrupted : list read_result :=
  [RRaise (IOError EINTR); RBytes (sample 2 x05); RBytes (sample 1 x06)].

(** A device that answers two reads of 16 bytes with different bytes,
    the second one after an interruption and in two pieces. *)
Definition script_healthy : list read_result :=
  [RBytes (sample 16 x01); RRaise (IOError EINTR);
   RBytes (sample 10 x02); RBytes (sample 6 x03)].

(** A device that answers two reads of 16 bytes with the same bytes. *)
Definition script_stuck : list read_result :=
  [RBytes (sample 16 x01); RBytes (sample 16 x01)].


(** ** Further vocabulary for the log *)

(** The bytes that one read handed over. *)
Definition handed (r : read_result) : bytes :=
  match r with
  | RBytes d => d
  | RNone | RRaise _ => []
  end.

(** The recorded calls are reads, and each one asked for what was still
    missing of [N] when [held] was already there: a positive number. *)
Fixpoint requests_follow (N : Z) (held : bytes) (evs : list io_event) : Prop :=
  match evs with
  | [] => True
  | EvRead k r :: evs' =>
      k = N - len held /\ 0 < k /\ requests_follow N (held ++ handed r) evs'
  | EvClose :: _ => False
  end.

(** An object of a class that sets [name] and overrides neither [_read]
    nor [_close]: both are the bodies of [BaseRNG]. *)
Record BareRNG : Type := mkBare { bare_closed : bool; bare_name : string }.

#[export] Instance BareRNG_RNG : RNG BareRNG := {
  closed := bare_closed;
  set_closed b self := {| bare_closed := b; bare_name := bare_name self |};
  name := bare_name;
  _read := fun _ => BaseRNG_read;
  _close := BaseRNG_close
}.

(** ** The raw read loop *)


Lemma delivered_app (a b : list io_event) :
  delivered (a ++ b) = delivered a ++ delivered b.
Proof.
  induction a as [|ev a IH]; simpl; [reflexivity|].
  destruct ev as [k [d| |e]|]; simpl; rewrite IH, ?app_assoc; reflexivity.
Qed.

Lemma count_closes_app (a b : list io_event) :
  count_closes (a ++ b) = (count_closes a + count_closes b)%nat.
Proof.
  induction a as [|[k r|] a IH]; simpl; rewrite ?IH; reflexivity.
Qed.

Lemma len_app (a b : bytes) : len (a ++ b) = len a + len b.
Proof. unfold len. rewrite length_app. lia. Qed.

Lemma len_nonneg (a : bytes) : 0 <= len a.
Proof. unfold len. lia. Qed.

Lemma len_zero (a : bytes) : len a = 0 -> a = [].
Proof. destruct a; [reflexivity|]. unfold len; simpl; lia. Qed.

Lemma bytes_eqb_eq (a b : bytes) : bytes_eqb a b = true <-> a = b.
Proof.
  revert b; induction a as [|x a IH]; intros [|y b]; simpl;
    try (split; congruence).
  rewrite andb_true_iff, IH. split.
  - intros [Hxy ->]. apply Byte.byte_dec_bl in Hxy. now subst.
  - intros [= -> ->]. split; [now apply Byte.byte_dec_lb | reflexivity].
Qed.

Section ReadLoop.
Context {P : Posix}.


Lemma chan_read_log c k r c' :
  chan_read c k = (r, c') -> io_log c' = io_log c ++ [EvRead k r].
Proof.
  unfold chan_read. destruct (file_read (fobj c) k) as [r0 f'].
  intros [= <- <-]. reflexivity.
Qed.

Lemma chan_read_file c k r c' :
  chan_read c k = (r, c') -> file_read (fobj c) k = (r, fobj c').
Proof.
  unfold chan_read. destruct (file_read (fobj c) k) as [r0 f'].
  intros [= <- <-]. reflexivity.
Qed.

(** One iteration, case by case. *)
Lemma _read_loop_done fuel N data c :
  N <= len data -> _read_loop (S fuel) N data c = Return data c.
Proof. intros H. simpl. destruct (Z.ltb_spec (len data) N); [lia|auto]. Qed.

Lemma _read_loop_eintr fuel N data c c' :
  len data < N ->
  chan_read c (N - len data) = (RRaise (IOError EINTR), c') ->
  _read_loop (S fuel) N data c = _read_loop fuel N data c'.
Proof.
  intros H E. simpl. destruct (Z.ltb_spec (len data) N); [|lia].
  rewrite E. reflexivity.
Qed.

Lemma _read_loop_more fuel N data c d c' :
  len data < N -> d <> [] ->
  chan_read c (N - len data) = (RBytes d, c') ->
  _read_loop (S fuel) N data c = _read_loop fuel N (data ++ d) c'.
Proof.
  intros H Hd E. simpl. destruct (Z.ltb_spec (len data) N); [|lia].
  rewrite E. destruct (Z.eqb_spec (len d) 0) as [Z0|]; [|reflexivity].
  now apply len_zero in Z0.
Qed.

Lemma _read_loop_short fuel N data c r c' :
  len data < N -> r = RNone \/ r = RBytes [] ->
  chan_read c (N - len data) = (r, c') ->
  _read_loop (S fuel) N data c = Return data c'.
Proof.
  intros H Hr E. simpl. destruct (Z.ltb_spec (len data) N); [|lia].
  rewrite E. destruct Hr as [-> | ->]; reflexivity.
Qed.

(** More fuel does not change a result. *)
Lemma _read_loop_mono fuel : forall N data c fuel',
  (fuel <= fuel')%nat ->
  _read_loop fuel N data c <> Diverge ->
  _read_loop fuel' N data c = _read_loop fuel N data c.
Proof.
  induction fuel as [|fuel IH]; intros N data c fuel' Hle Hnd.
  - now contradiction Hnd.
  - destruct fuel' as [|fuel']; [lia|]. simpl in *.
    destruct (len data <? N); [|reflexivity].
    destruct (chan_read c (N - len data)) as [[d| |e] c'];
      try reflexivity.
    + destruct (len d =? 0); [reflexivity|]. apply IH; [lia|assumption].
    + destruct e; try reflexivity.
      destruct (errno =? EINTR); [|reflexivity].
      apply IH; [lia|assumption].
Qed.

(** With bounded interruptions the loop ends: every iteration that does
    not leave it either uses up budget or adds at least one byte. *)
Lemma _read_loop_terminates budget :
  interrupts_bounded budget ->
  forall fuel N data c,
    (budget (fobj c) + Z.to_nat (N - len data) < fuel)%nat ->
    _read_loop fuel N data c <> Diverge.
Proof.
  intros [Hsig Hdat]. induction fuel as [|fuel IH]; intros N data c Hf; [lia|].
  simpl. destruct (Z.ltb_spec (len data) N) as [Hlt|]; [|discriminate].
  destruct (chan_read c (N - len data)) as [[d| |e] c'] eqn:E;
    try discriminate; apply chan_read_file in E.
  - destruct (Z.eqb_spec (len d) 0) as [|Hd]; [discriminate|].
    apply IH. pose proof (len_nonneg d). rewrite len_app.
    apply Hdat in E. lia.
  - destruct e; try discriminate.
    destruct (Z.eqb_spec errno EINTR) as [->|]; [|discriminate].
    apply IH. apply Hsig in E. lia.
Qed.
End ReadLoop.

Section ReadLoopLog.
Context {P : Posix}.

(** What a normal return of the loop means: the reads it made are the
    new entries of the log, the result is what they handed over, after
    the bytes already held, and the loop stopped because it had enough
    or because the last read found nothing. *)
Lemma _read_loop_return fuel : forall N data c d c',
  _read_loop fuel N data c = Return d c' ->
  exists evs,
    io_log c' = io_log c ++ evs /\ d = data ++ delivered evs /\
    count_closes evs = O /\ (N <= len d \/ starved evs).
Proof.
  induction fuel as [|fuel IH]; intros N data c d c'; simpl; [discriminate|].
  destruct (Z.ltb_spec (len data) N) as [Hlt|Hge].
  - destruct (chan_read c (N - len data)) as [[d0| |e] c1] eqn:E;
      pose proof (chan_read_log _ _ _ _ E) as L.
    + destruct (Z.eqb_spec (len d0) 0) as [Z0|].
      * intros [= <- <-]. apply len_zero in Z0. subst d0.
        exists [EvRead (N - len data) (RBytes [])]. simpl.
        rewrite app_nil_r. repeat split; auto.
        right. exists [], (N - len data), (RBytes []). auto.
      * intros H. apply IH in H as (evs & L' & D & C & S).
        exists (EvRead (N - len data) (RBytes d0) :: evs). simpl.
        rewrite L', L, <- !app_assoc in *. repeat split; auto.
        destruct S as [S|(evs0 & k & r & -> & Hr)]; [now left|right].
        exists (EvRead (N - len data) (RBytes d0) :: evs0), k, r. auto.
    + intros [= <- <-]. exists [EvRead (N - len data) RNone]. simpl.
      rewrite app_nil_r. repeat split; auto.
      right. exists [], (N - len data), RNone. auto.
    + destruct e; try discriminate.
      destruct (errno =? EINTR); [|discriminate].
      intros H. apply IH in H as (evs & L' & D & C & S).
      exists (EvRead (N - len data) (RRaise (IOError errno)) :: evs). simpl.
      rewrite L', L, <- !app_assoc in *. repeat split; auto.
      destruct S as [S|(evs0 & k & r & -> & Hr)]; [now left|right].
      exists (EvRead (N - len data) (RRaise (IOError errno)) :: evs0), k, r.
      auto.
  - intros [= <- <-]. exists []. rewrite !app_nil_r. simpl. auto.
Qed.

(** What an exception of the loop means: it is the exception of the last
    read, and it is not the interruption by a signal. *)
Lemma _read_loop_raise fuel : forall N data c e c',
  _read_loop fuel N data c = Raise e c' ->
  e <> IOError EINTR /\
  exists evs k,
    io_log c' = io_log c ++ evs ++ [EvRead k (RRaise e)] /\
    count_closes evs = O.
Proof.
  induction fuel as [|fuel IH]; intros N data c e c'; simpl; [discriminate|].
  destruct (len data <? N); [|discriminate].
  destruct (chan_read c (N - len data)) as [[d0| |e0] c1] eqn:E;
    pose proof (chan_read_log _ _ _ _ E) as L; try discriminate.
  - destruct (len d0 =? 0); [discriminate|].
    intros H. apply IH in H as (Hne & evs & k & L' & C). split; [exact Hne|].
    exists (EvRead (N - len data) (RBytes d0) :: evs), k.
    rewrite L', L, <- !app_assoc. auto.
  - assert (Hprop : forall e1, e1 = e0 -> e1 <> IOError EINTR ->
              Raise (S:=chan) (A:=bytes) e1 c1 = Raise e c' ->
              e <> IOError EINTR /\
              exists evs k,
                io_log c' = io_log c ++ evs ++ [EvRead k (RRaise e)] /\
                count_closes evs = O).
    { intros e1 -> Hne [= <- <-]. split; [exact Hne|].
      exists [], (N - len data). rewrite L. auto. }
    destruct e0 as [m|m|m|m|errno|m];
      try (apply Hprop; [reflexivity|discriminate]).
    destruct (Z.eqb_spec errno EINTR) as [->|Hne].
    + intros H. apply IH in H as (Hne & evs & k & L' & C).
      split; [exact Hne|].
      exists (EvRead (N - len data) (RRaise (IOError EINTR)) :: evs), k.
      rewrite L', L, <- !app_assoc. auto.
    + apply Hprop; [reflexivity|congruence].
Qed.

(** On a device that respects the size asked for, the loop never holds
    more than [N] bytes. *)
Lemma _read_loop_at_most fuel : forall N data c d c',
  reads_bounded -> len data <= N ->
  _read_loop fuel N data c = Return d c' -> len d <= N.
Proof.
  induction fuel as [|fuel IH]; intros N data c d c' Hb Hle; simpl;
    [discriminate|].
  destruct (len data <? N); [|now intros [= <- <-]].
  destruct (chan_read c (N - len data)) as [[d0| |e0] c1] eqn:E;
    try discriminate; try (now intros [= <- <-]).
  - destruct (len d0 =? 0); [now intros [= <- <-]|].
    apply IH; [exact Hb|]. apply chan_read_file, Hb in E.
    rewrite len_app. lia.
  - destruct e0; try discriminate.
    destruct (errno =? EINTR); [|discriminate]. now apply IH.
Qed.
End ReadLoopLog.

(** ** The facade, for any child class *)

Section BaseRNGFacts.
Context {Self : Type} {R : RNG Self}.

Lemma read_closed fuel N (self : Self) :
  closed self = true -> read fuel N self = Raise ClosedHandleError self.
Proof. intros H. unfold read, bind, get. simpl. now rewrite H. Qed.

Lemma read_not_integer fuel N (self : Self) :
  closed self = false -> as_integer N = None ->
  read fuel N self = Raise (TypeError "an integer is required") self.
Proof. intros H HN. unfold read, bind, get. simpl. now rewrite H, HN. Qed.

Lemma read_negative fuel N n (self : Self) :
  closed self = false -> as_integer N = Some n -> n < 0 ->
  read fuel N self = Raise InvalidArgument self.
Proof.
  intros H HN Hn. unfold read, bind, get. simpl. rewrite H, HN.
  destruct (Z.ltb_spec n 0); [reflexivity|lia].
Qed.

Lemma read_zero fuel N (self : Self) :
  closed self = false -> as_integer N = Some 0 ->
  read fuel N self = Return [] self.
Proof. intros H HN. unfold read, bind, get. simpl. now rewrite H, HN. Qed.

(** A positive request goes to [self._read], and the length of what
    comes back is checked. *)
Lemma read_positive fuel N n (self : Self) :
  closed self = false -> as_integer N = Some n -> 0 < n ->
  read fuel N self =
  match _read fuel n self with
  | Return data self' =>
      if len data =? n then Return data self'
      else Raise (TruncatedReadError (name self') n (len data)) self'
  | Raise e self' => Raise e self'
  | Diverge => Diverge
  end.
Proof.
  intros H HN Hn. unfold read, bind, get. simpl. rewrite H, HN.
  destruct (Z.ltb_spec n 0); [lia|].
  destruct (Z.eqb_spec n 0); [lia|].
  destruct (_read fuel n self) as [data self'| |]; try reflexivity.
  destruct (len data =? n); reflexivity.
Qed.

Lemma flush_noop (self : Self) : flush self = Return tt self.
Proof. reflexivity. Qed.
End BaseRNGFacts.

(** ** The scripted device *)

Lemma mock_interrupts_bounded (fs : string -> exn + mock_file) :
  @interrupts_bounded (MockPosix fs) (fun f => List.length (script f)).
Proof.
  split; simpl; unfold mock_read.
  - intros f k f' H. destruct (script f) as [|r rest] eqn:E;
      [discriminate|]. injection H as -> <-. simpl. lia.
  - intros f k d f' H. destruct (script f) as [|r rest] eqn:E;
      injection H as _ <-; simpl; rewrite ?E; simpl; lia.
Qed.

(** ** DevURandomRNG *)

Section DevURandomRNGFacts.
Context {P : Posix}.

(** [_read] leaves [closed] and [name] alone and only appends reads to
    the log of the file object. *)
Lemma dev_read_return fuel n (self self' : DevURandomRNG) data :
  _read fuel n self = Return data self' ->
  closed self' = closed self /\ name self' = name self /\
  _read_loop fuel n [] (__file self) = Return data (__file self').
Proof.
  simpl. unfold DevURandomRNG_read.
  destruct (_read_loop fuel n [] (__file self)); try discriminate.
  intros [= <- <-]. auto.
Qed.

Lemma dev_read_raise fuel n (self self' : DevURandomRNG) e :
  _read fuel n self = Raise e self' ->
  closed self' = closed self /\ name self' = name self /\
  _read_loop fuel n [] (__file self) = Raise e (__file self').
Proof.
  simpl. unfold DevURandomRNG_read.
  destruct (_read_loop fuel n [] (__file self)); try discriminate.
  intros [= <- <-]. auto.
Qed.

Lemma dev_read_terminates budget fuel n (self : DevURandomRNG) :
  interrupts_bounded budget ->
  (budget (fobj (__file self)) + Z.to_nat n < fuel)%nat ->
  _read fuel n self <> Diverge.
Proof.
  intros Hb Hf. simpl. unfold DevURandomRNG_read.
  pose proof (_read_loop_terminates budget Hb fuel n [] (__file self)) as T.
  destruct (_read_loop fuel n [] (__file self)); try discriminate.
  exfalso. apply T; [|reflexivity]. unfold len. simpl. now rewrite Z.sub_0_r.
Qed.

(** C1.  For every integer [n >= 0], [read(n)] on an object that is not
    closed either returns exactly [n] bytes or raises: the truncation
    error, which names the [n] requested and the number of bytes the
    device handed over (fewer than [n] only when the last read found
    nothing), or the error of the failed device read, which is never the
    interruption by a signal.  When signals cannot interrupt the device
    for ever, the call does end. *)
Theorem read_exact_length_or_error
  (self : DevURandomRNG) (N : PyVal) (n : Z) :
  as_integer N = Some n -> 0 <= n -> closed self = false ->
  (forall fuel,
      match read fuel N self with
      | Return data self' => len data = n
      | Raise e self' =>
          (exists got evs,
              e = TruncatedReadError (name self) n got /\ got <> n /\
              io_log (__file self') = io_log (__file self) ++ evs /\
              got = len (delivered evs) /\ (got < n -> starved evs))
          \/ (e <> IOError EINTR /\
              exists evs k,
                io_log (__file self') =
                io_log (__file self) ++ evs ++ [EvRead k (RRaise e)])
      | Diverge => True
      end) /\
  (forall budget, interrupts_bounded budget ->
     forall fuel, (budget (fobj (__file self)) + Z.to_nat n < fuel)%nat ->
       read fuel N self <> Diverge).
Proof.
  intros HN Hn Hc.
  destruct (Z.eq_dec n 0) as [->|Hn0].
  { split; intros; rewrite (read_zero _ _ _ Hc HN); [reflexivity|discriminate]. }
  assert (Hpos : 0 < n) by lia. split.
  - intros fuel. rewrite (read_positive _ _ _ _ Hc HN Hpos).
    destruct (_read fuel n self) as [data self'|e self'|] eqn:E; [| |exact I].
    + apply dev_read_return in E as (_ & Hname & L).
      destruct (Z.eqb_spec (len data) n) as [Hlen|Hlen]; [exact Hlen|].
      left. apply _read_loop_return in L as (evs & L & D & _ & S).
      simpl in D. subst data. exists (len (delivered evs)), evs.
      rewrite Hname. repeat split; auto.
      intros Hlt. destruct S as [S|S]; [lia|exact S].
    + apply dev_read_raise in E as (_ & _ & L).
      apply _read_loop_raise in L as (Hne & evs & k & L & _).
      right. split; [exact Hne|]. now exists evs, k.
  - intros budget Hb fuel Hf. rewrite (read_positive _ _ _ _ Hc HN Hpos).
    pose proof (dev_read_terminates budget fuel n self Hb Hf) as T.
    destruct (_read fuel n self) as [data self'|e self'|]; try discriminate.
    + destruct (len data =? n); discriminate.
    + now contradiction T.
Qed.
End DevURandomRNGFacts.

Lemma read_exact_length_or_error_witness :
  as_integer (PyInt 3) = Some 3 /\ 0 <= 3 /\
  closed (mock_rng script_interrupted false) = false /\
  (forall fuel data self',
      read fuel (PyInt 3) (mock_rng script_interrupted false)
      = Return data self' -> len data = 3) /\
  (forall fuel, (6 < fuel)%nat ->
      read fuel (PyInt 3) (mock_rng script_interrupted false) <> Diverge).
Proof.
  destruct (read_exact_length_or_error
              (mock_rng script_interrupted false) (PyInt 3) 3
              eq_refl ltac:(lia) eq_refl) as [Hres Hend].
  repeat split; try reflexivity; try lia.
  - intros fuel data self' E. specialize (Hres fuel). rewrite E in Hres.
    exact Hres.
  - intros fuel Hf.
    apply (Hend _ (mock_interrupts_bounded (mock_fs script_interrupted chr_mode))).
    simpl. lia.
Defined.

(** ** Argument checks, close and flush *)

Section Lifecycle.
Context {P : Posix}.

(** What a call of [close] leaves behind. *)
Lemma close_result (self : DevURandomRNG) :
  close self =
  Return tt {| dev_closed := true;
               dev_name := dev_name self;
               __file := if dev_closed self then __file self
                         else chan_close (__file self) |}.
Proof.
  unfold close, bind, get, modify. simpl.
  destruct (dev_closed self); reflexivity.
Qed.

Lemma closed_object_eta (self : DevURandomRNG) :
  closed self = true ->
  {| dev_closed := true; dev_name := dev_name self; __file := __file self |}
  = self.
Proof. destruct self as [c n f]. simpl. now intros ->. Qed.

(** A call of [read] leaves [closed] as it was and does not close the
    file, however it ends. *)
Lemma read_final_state fuel N (self self' : DevURandomRNG) :
  final_state (read fuel N self) = Some self' ->
  closed self' = closed self /\
  count_closes (io_log (__file self')) = count_closes (io_log (__file self)).
Proof.
  destruct (closed self) eqn:Hc.
  { rewrite (read_closed _ _ _ Hc). simpl. intros [= <-]. auto. }
  destruct (as_integer N) as [n|] eqn:HN.
  2:{ rewrite (read_not_integer _ _ _ Hc HN). simpl. intros [= <-]. auto. }
  destruct (Z.ltb_spec n 0) as [Hneg|Hnn].
  { rewrite (read_negative _ _ _ _ Hc HN Hneg). simpl. intros [= <-]. auto. }
  destruct (Z.eq_dec n 0) as [->|Hn0].
  { rewrite (read_zero _ _ _ Hc HN). simpl. intros [= <-]. auto. }
  rewrite (read_positive _ _ _ _ Hc HN ltac:(lia)).
  destruct (_read fuel n self) as [data s|e s|] eqn:E; [| |discriminate].
  - apply dev_read_return in E as (Hcl & _ & L).
    apply _read_loop_return in L as (evs & L & _ & C & _).
    assert (Hs : closed s = closed self /\
                 count_closes (io_log (__file s))
                 = count_closes (io_log (__file self))).
    { split; [exact Hcl|]. rewrite L, count_closes_app, C. lia. }
    rewrite Hc in Hs. destruct (len data =? n); simpl; intros [= <-]; exact Hs.
  - apply dev_read_raise in E as (Hcl & _ & L).
    apply _read_loop_raise in L as (_ & evs & k & L & C).
    simpl. intros [= <-]. split; [now rewrite <- Hc|].
    rewrite L, !count_closes_app, C. simpl. lia.
Qed.

(** One call: the object never reopens, and the file is closed by the
    call that closes the object and by no other. *)
Lemma do_call_accounting fuel c (self self' : DevURandomRNG) :
  final_state (do_call fuel c self) = Some self' ->
  (closed self = true -> closed self' = true) /\
  count_closes (io_log (__file self')) =
  (count_closes (io_log (__file self)) +
   (if closed self then 0 else if closed self' then 1 else 0))%nat.
Proof.
  destruct c as [N| |]; cbn [do_call].
  - intros F.
    assert (F' : final_state (read fuel N self) = Some self').
    { revert F. unfold bind, ret.
      destruct (read fuel N self); simpl; auto. }
    apply read_final_state in F' as (Hc & Hn). rewrite Hc, Hn.
    split; [auto|]. destruct (closed self); lia.
  - unfold flush, ret. cbn [final_state]. intros [= <-].
    split; [auto|]. destruct (closed self); lia.
  - rewrite close_result. cbn [final_state]. intros [= <-].
    cbn [closed DevURandomRNG_RNG dev_closed __file]. split; [auto|].
    destruct (dev_closed self); simpl; rewrite ?count_closes_app; simpl; lia.
Qed.

Lemma after_calls_accounting fuel cs : forall (self self' : DevURandomRNG),
  after_calls fuel cs self = Some self' ->
  (closed self = true -> closed self' = true) /\
  count_closes (io_log (__file self')) =
  (count_closes (io_log (__file self)) +
   (if closed self then 0 else if closed self' then 1 else 0))%nat.
Proof.
  induction cs as [|c cs IH]; intros self self'; cbn [after_calls].
  - intros [= <-]. split; [auto|]. destruct (closed self); lia.
  - destruct (final_state (do_call fuel c self)) as [s|] eqn:E;
      [|discriminate].
    intros H. apply do_call_accounting in E as (M1 & C1).
    apply IH in H as (M2 & C2). split; [auto|].
    rewrite C2, C1.
    destruct (closed self), (closed s), (closed self'); try lia;
      solve [now specialize (M1 eq_refl) | now specialize (M2 eq_refl)].
Qed.

(** Nothing that a caller does to a closed object changes it. *)
Lemma after_calls_closed fuel cs : forall (self : DevURandomRNG),
  closed self = true -> after_calls fuel cs self = Some self.
Proof.
  induction cs as [|c cs IH]; intros self Hc; simpl; [reflexivity|].
  assert (E : final_state (do_call fuel c self) = Some self).
  { destruct c as [N| |]; simpl.
    - unfold bind. now rewrite (read_closed _ _ _ Hc).
    - reflexivity.
    - rewrite close_result. simpl in *. rewrite Hc.
      now rewrite (closed_object_eta self Hc). }
  rewrite E. now apply IH.
Qed.
End Lifecycle.

(** C4 as stated fails: on a closed object [read(0)] raises, because the
    test of [self.closed] comes first. *)
Lemma read_zero_closed_counterexample :
  closed (mock_rng [] true) = true /\
  read 1 (PyInt 0) (mock_rng [] true)
  = Raise ClosedHandleError (mock_rng [] true) /\
  ~ (exists self', read 1 (PyInt 0) (mock_rng [] true) = Return [] self').
Proof.
  repeat split. intros [self' H]. discriminate H.
Qed.

(** C4, amended.  On an object that is not closed, [read(0)] returns the
    empty string; on a closed one it raises the closed-file error.  In
    both cases the object, its file and the log of the file are left as
    they were: no read reaches the device. *)
Theorem read_zero_returns_empty_without_io
  {P : Posix} (self : DevURandomRNG) (fuel : nat) :
  read fuel (PyInt 0) self =
  (if closed self then Raise ClosedHandleError self else Return [] self) /\
  final_state (read fuel (PyInt 0) self) = Some self.
Proof.
  destruct (closed self) eqn:Hc.
  - rewrite (read_closed _ _ _ Hc). auto.
  - rewrite (read_zero fuel (PyInt 0) self Hc eq_refl). auto.
Qed.

(** C5 as stated fails: on a closed object [read(-1)] raises the
    closed-file error, not the bad-argument one. *)
Lemma read_negative_closed_counterexample :
  closed (mock_rng [] true) = true /\
  read 1 (PyInt (-1)) (mock_rng [] true)
  = Raise ClosedHandleError (mock_rng [] true) /\
  ~ (exists self',
        read 1 (PyInt (-1)) (mock_rng [] true) = Raise InvalidArgument self').
Proof.
  repeat split. intros [self' H]. discriminate H.
Qed.

(** C5, amended.  For every integer [n < 0], [read(n)] raises a
    [ValueError] and leaves the object, its file and the log of the file
    as they were: the bad-argument error on an object that is not closed,
    the closed-file error on a closed one. *)
Theorem read_negative_raises_without_io
  {P : Posix} (self : DevURandomRNG) (fuel : nat) (N : PyVal) (n : Z) :
  as_integer N = Some n -> n < 0 ->
  read fuel N self =
  Raise (if closed self then ClosedHandleError else InvalidArgument) self.
Proof.
  intros HN Hn. destruct (closed self) eqn:Hc.
  - apply (read_closed _ _ _ Hc).
  - apply (read_negative _ _ _ _ Hc HN Hn).
Qed.

Lemma read_negative_raises_without_io_witness :
  as_integer (PyInt (-1)) = Some (-1) /\ -1 < 0 /\
  read 0 (PyInt (-1)) (mock_rng script_interrupted false)
  = Raise InvalidArgument (mock_rng script_interrupted false).
Proof.
  split; [reflexivity|]. split; [lia|].
  apply (read_negative_raises_without_io
           (mock_rng script_interrupted false) 0 (PyInt (-1)) (-1));
    [reflexivity | lia].
Defined.

(** C6.  Once [close()] has been called, whatever the caller does next,
    every [read(n)] with [n > 0] raises the closed-file error; it returns
    no bytes and the log of the file gains no entry. *)
Theorem read_after_close_raises
  {P : Posix} (self : DevURandomRNG) (fuel : nat) (cs : list call) (n : Z) :
  0 < n ->
  exists s1 s2,
    close self = Return tt s1 /\
    after_calls fuel cs s1 = Some s2 /\
    read fuel (PyInt n) s2 = Raise ClosedHandleError s2 /\
    io_log (__file s2) = io_log (__file s1).
Proof.
  intros _.
  set (s1 := {| dev_closed := true;
                dev_name := dev_name self;
                __file := if dev_closed self then __file self
                          else chan_close (__file self) |}).
  assert (Hc : closed s1 = true) by reflexivity.
  exists s1, s1. split; [apply close_result|].
  split; [apply (after_calls_closed fuel cs s1 Hc)|].
  split; [apply (read_closed _ _ _ Hc)|reflexivity].
Qed.

Lemma read_after_close_raises_witness :
  0 < 1 /\
  exists s1 s2,
    close (mock_rng script_interrupted false) = Return tt s1 /\
    after_calls 5 [CallFlush; CallRead (PyInt 2); CallClose] s1 = Some s2 /\
    read 5 (PyInt 1) s2 = Raise ClosedHandleError s2 /\
    io_log (__file s2) = io_log (__file s1).
Proof.
  split; [lia|].
  apply (read_after_close_raises (mock_rng script_interrupted false) 5
           [CallFlush; CallRead (PyInt 2); CallClose] 1).
  lia.
Defined.

(** C7.  [close()] never fails and leaves the object closed; on a closed
    object it changes nothing; it closes the file when the object was not
    closed and only then.  Over any sequence of calls the file is closed
    once when the object goes from open to closed, and never otherwise. *)
Theorem close_is_idempotent
  {P : Posix} (self : DevURandomRNG) (fuel : nat) (cs : list call) :
  (exists s1,
      close self = Return tt s1 /\ closed s1 = true /\
      close s1 = Return tt s1 /\
      io_log (__file s1) =
      io_log (__file self) ++ (if closed self then [] else [EvClose]) /\
      (if closed self then s1 = self else fobj (__file s1) = file_close (fobj (__file self)))) /\
  (forall s', after_calls fuel cs self = Some s' ->
     count_closes (io_log (__file s')) =
     (count_closes (io_log (__file self)) +
      (if closed self then 0 else if closed s' then 1 else 0))%nat).
Proof.
  split.
  - eexists. split; [apply close_result|]. split; [reflexivity|].
    split; [rewrite close_result; reflexivity|].
    simpl. destruct (dev_closed self) eqn:Hc.
    + split; [now rewrite app_nil_r|]. now apply closed_object_eta.
    + split; reflexivity.
  - intros s' H. now apply after_calls_accounting in H.
Qed.

(** C9.  [flush()] returns at once in every state and leaves the object,
    its file and the log of the file as they were. *)
Theorem flush_is_a_noop {P : Posix} (self : DevURandomRNG) :
  flush self = Return tt self.
Proof. reflexivity. Qed.

(** C10.  On an object that is not closed, [read(N)] with an [N] that is
    not an integer raises [TypeError] and leaves the object, its file and
    the log of the file as they were: the type is tested before the sign
    and before any read of the device. *)
Theorem read_rejects_non_integer
  {P : Posix} (self : DevURandomRNG) (fuel : nat) (N : PyVal) :
  isinstance_integer N = false -> closed self = false ->
  read fuel N self = Raise (TypeError "an integer is required") self.
Proof.
  unfold isinstance_integer. intros HN Hc.
  destruct (as_integer N) eqn:E; [discriminate|].
  apply (read_not_integer _ _ _ Hc E).
Qed.

Lemma read_rejects_non_integer_witness :
  isinstance_integer (PyFloat (-3) 0) = false /\
  closed (mock_rng script_interrupted false) = false /\
  read 5 (PyFloat (-3) 0) (mock_rng script_interrupted false)
  = Raise (TypeError "an integer is required")
          (mock_rng script_interrupted false).
Proof.
  split; [reflexivity|]. split; [reflexivity|].
  apply (read_rejects_non_integer
           (mock_rng script_interrupted false) 5 (PyFloat (-3) 0));
    reflexivity.
Defined.

(** ** Construction *)

Section Construction.
Context {P : Posix}.

(** The self-test, read by read, on an object that is not closed. *)
Lemma _selftest_cases fuel (self : DevURandomRNG) :
  closed self = false ->
  _selftest fuel self =
  match _read_loop fuel 16 [] (__file self) with
  | Return d1 c1 =>
      if len d1 =? 16 then
        match _read_loop fuel 16 [] c1 with
        | Return d2 c2 =>
            if len d2 =? 16 then
              if bytes_eqb d1 d2
              then Raise (AssertionError "OS RNG returned duplicate data")
                         (set_file c2 self)
              else Return tt (set_file c2 self)
            else Raise (TruncatedReadError (name self) 16 (len d2))
                       (set_file c2 self)
        | Raise e c2 => Raise e (set_file c2 self)
        | Diverge => Diverge
        end
      else Raise (TruncatedReadError (name self) 16 (len d1))
                 (set_file c1 self)
  | Raise e c1 => Raise e (set_file c1 self)
  | Diverge => Diverge
  end.
Proof.
  intros Hc. unfold _selftest, bind at 1.
  rewrite (read_positive fuel (PyInt 16) 16 self Hc eq_refl ltac:(lia)).
  cbn [_read DevURandomRNG_RNG]. unfold DevURandomRNG_read at 1.
  destruct (_read_loop fuel 16 [] (__file self)) as [d1 c1|e c1|];
    try reflexivity.
  destruct (len d1 =? 16) eqn:L1; [|reflexivity].
  rewrite L1. cbn [negb]. unfold bind at 1.
  assert (Hc1 : closed (set_file c1 self) = false) by exact Hc.
  rewrite (read_positive fuel (PyInt 16) 16 _ Hc1 eq_refl ltac:(lia)).
  cbn [_read DevURandomRNG_RNG]. unfold DevURandomRNG_read at 1.
  cbn [__file set_file].
  destruct (_read_loop fuel 16 [] c1) as [d2 c2|e c2|]; try reflexivity.
  destruct (len d2 =? 16); [|reflexivity].
  destruct (bytes_eqb d1 d2); reflexivity.
Qed.

(** Past the test of the device type, the constructor is the self-test. *)
Lemma new_on_character_device fuel devname (f0 : file) :
  py_open (device_name devname) = inr f0 ->
  S_ISCHR (fstat_mode f0) = true ->
  new fuel devname =
  match _selftest fuel {| dev_closed := false;
                          dev_name := device_name devname;
                          __file := {| fobj := f0; io_log := [] |} |} with
  | Return _ self => Constructed self
  | Raise e self => CtorRaise e (Some (__file self))
  | Diverge => CtorDiverge
  end.
Proof.
  intros Ho Hm. unfold new, DevURandomRNG_init.
  rewrite Ho. cbn zeta. rewrite Hm. reflexivity.
Qed.

(** C3.  When the file that [open] returns is not a character device,
    the constructor closes it and raises the error of the wrong device
    type; no object comes out of it. *)
Theorem not_a_character_device_is_rejected
  (fuel : nat) (devname : option string) (f0 : file) :
  py_open (device_name devname) = inr f0 ->
  S_ISCHR (fstat_mode f0) = false ->
  new fuel devname =
  CtorRaise (OpenError (device_name devname))
            (Some (chan_close {| fobj := f0; io_log := [] |})) /\
  (forall self, new fuel devname <> Constructed self).
Proof.
  intros Ho Hm. unfold new, DevURandomRNG_init.
  rewrite Ho. cbn zeta. rewrite Hm. cbn [negb].
  split; [reflexivity|discriminate].
Qed.

(** C2.  Construction reads 16 bytes twice.  It ends in a failed
    assertion when the device hands over a first or a second sample that
    is not 16 bytes long, and when the two samples are equal; an object
    that comes out of it has drawn two different samples of 16 bytes. *)
Theorem construction_runs_selftest
  (fuel : nat) (devname : option string) (f0 : file) :
  py_open (device_name devname) = inr f0 ->
  S_ISCHR (fstat_mode f0) = true ->
  let c0 := {| fobj := f0; io_log := [] |} in
  (forall d1 c1,
      _read_loop fuel 16 [] c0 = Return d1 c1 -> len d1 <> 16 ->
      exists e, SelfTestError e /\ new fuel devname = CtorRaise e (Some c1)) /\
  (forall d1 c1 d2 c2,
      _read_loop fuel 16 [] c0 = Return d1 c1 -> len d1 = 16 ->
      _read_loop fuel 16 [] c1 = Return d2 c2 ->
      len d2 <> 16 \/ d2 = d1 ->
      exists e, SelfTestError e /\ new fuel devname = CtorRaise e (Some c2)) /\
  (forall self,
      new fuel devname = Constructed self ->
      exists d1 c1 d2,
        _read_loop fuel 16 [] c0 = Return d1 c1 /\
        _read_loop fuel 16 [] c1 = Return d2 (__file self) /\
        len d1 = 16 /\ len d2 = 16 /\ d1 <> d2 /\
        closed self = false /\ name self = device_name devname).
Proof.
  intros Ho Hm c0. rewrite (new_on_character_device fuel devname f0 Ho Hm).
  rewrite _selftest_cases by reflexivity.
  cbn [__file name DevURandomRNG_RNG dev_name]. subst c0. repeat split.
  - intros d1 c1 E1 L1. rewrite E1.
    destruct (Z.eqb_spec (len d1) 16); [contradiction|].
    eexists. split; [|reflexivity]. now eexists.
  - intros d1 c1 d2 c2 E1 L1 E2 H. rewrite E1, L1, E2. cbn [Z.eqb Pos.eqb].
    destruct (Z.eqb_spec (len d2) 16) as [L2|L2].
    + destruct H as [H | ->]; [contradiction|].
      assert (Heq : bytes_eqb d1 d1 = true) by now apply bytes_eqb_eq.
      rewrite Heq. eexists. split; [|reflexivity]. now eexists.
    + eexists. split; [|reflexivity]. now eexists.
  - intros self.
    destruct (_read_loop fuel 16 [] {| fobj := f0; io_log := [] |})
      as [d1 c1|e c1|]; try discriminate.
    destruct (Z.eqb_spec (len d1) 16) as [L1|]; [|discriminate].
    destruct (_read_loop fuel 16 [] c1) as [d2 c2|e c2|] eqn:E2;
      try discriminate.
    destruct (Z.eqb_spec (len d2) 16) as [L2|]; [|discriminate].
    destruct (bytes_eqb d1 d2) eqn:Hne; [discriminate|].
    intros [= <-]. exists d1, c1, d2.
    split; [reflexivity|]. split; [exact E2|].
    split; [exact L1|]. split; [exact L2|].
    split; [|split; reflexivity].
    intros ->. assert (bytes_eqb d2 d2 = true) by now apply bytes_eqb_eq.
    congruence.
Qed.
End Construction.

Lemma not_a_character_device_is_rejected_witness :
  @py_open (mock_dev [] reg_mode) (device_name None)
  = inr (mkMock [] reg_mode O) /\
  S_ISCHR (@fstat_mode (mock_dev [] reg_mode) (mkMock [] reg_mode O)) = false /\
  @new (mock_dev [] reg_mode) 5 None =
  CtorRaise (TypeError "'/dev/urandom' is not a character special device")
            (Some (@mkChan (mock_dev [] reg_mode)
                           (mkMock [] reg_mode 1) [EvClose])) /\
  (forall self, @new (mock_dev [] reg_mode) 5 None <> Constructed self).
Proof.
  split; [reflexivity|]. split; [reflexivity|].
  apply (@not_a_character_device_is_rejected
           (mock_dev [] reg_mode) 5 None (mkMock [] reg_mode O));
    reflexivity.
Defined.

Lemma construction_runs_selftest_witness :
  @py_open (mock_dev script_stuck chr_mode) (device_name None)
  = inr (mkMock script_stuck chr_mode O) /\
  S_ISCHR (@fstat_mode (mock_dev script_stuck chr_mode)
                       (mkMock script_stuck chr_mode O)) = true /\
  exists e c,
    SelfTestError e /\
    @new (mock_dev script_stuck chr_mode) 5 None = CtorRaise e (Some c).
Proof.
  split; [reflexivity|]. split; [reflexivity|].
  destruct (@construction_runs_selftest
              (mock_dev script_stuck chr_mode) 5 None
              (mkMock script_stuck chr_mode O) eq_refl eq_refl)
    as (_ & Hsecond & _).
  destruct (Hsecond
              (sample 16 x01)
              (@mkChan (mock_dev script_stuck chr_mode)
                       (mkMock [RBytes (sample 16 x01)] chr_mode O)
                       [EvRead 16 (RBytes (sample 16 x01))])
              (sample 16 x01)
              (@mkChan (mock_dev script_stuck chr_mode)
                       (mkMock [] chr_mode O)
                       [EvRead 16 (RBytes (sample 16 x01));
                        EvRead 16 (RBytes (sample 16 x01))])
              eq_refl eq_refl eq_refl (or_intror eq_refl))
    as (e & He & Hnew).
  exists e. eexists. split; [exact He|exact Hnew].
Defined.

(** Construction over a healthy scripted device: the object is open and
    the log holds the reads of the self-test. *)
Example healthy_device_is_constructed :
  @new (mock_dev script_healthy chr_mode) 5 None =
  Constructed
    (@mkDev (mock_dev script_healthy chr_mode) false "/dev/urandom"
       (@mkChan (mock_dev script_healthy chr_mode) (mkMock [] chr_mode O)
          [EvRead 16 (RBytes (sample 16 x01));
           EvRead 16 (RRaise (IOError EINTR));
           EvRead 16 (RBytes (sample 10 x02));
           EvRead 6 (RBytes (sample 6 x03))])).
Proof. reflexivity. Qed.

(** ** The raw read *)

(** C8.  [DevURandomRNG._read] never lets the interruption by a signal
    out: the interrupted read is made again, with the bytes held so far.
    What it returns is what the reads handed over, in order; it has [N]
    bytes or more, or else the last read found nothing (end of stream or
    no data), which is a return and not an error; on a device that
    respects the size asked for it has at most [N] bytes.  A read that is
    interrupted once and then satisfied returns the [N] bytes.  When
    signals cannot interrupt the device for ever, the call ends. *)
Theorem raw_read_retries_and_accumulates
  {P : Posix} (self : DevURandomRNG) (N : Z) :
  (forall fuel e self', _read fuel N self = Raise e self' ->
      e <> IOError EINTR) /\
  (forall fuel data c c',
      len data < N ->
      chan_read c (N - len data) = (RRaise (IOError EINTR), c') ->
      _read_loop (S fuel) N data c = _read_loop fuel N data c') /\
  (forall fuel data self',
      _read fuel N self = Return data self' ->
      exists evs,
        io_log (__file self') = io_log (__file self) ++ evs /\
        data = delivered evs /\
        (N <= len data \/ starved evs) /\
        (reads_bounded -> 0 <= N -> len data <= N)) /\
  (forall fuel data c r c',
      len data < N -> r = RNone \/ r = RBytes [] ->
      chan_read c (N - len data) = (r, c') ->
      _read_loop (S fuel) N data c = Return data c') /\
  (forall fuel f1 f2 d,
      0 < N -> len d = N ->
      file_read (fobj (__file self)) N = (RRaise (IOError EINTR), f1) ->
      file_read f1 N = (RBytes d, f2) ->
      _read (3 + fuel) N self =
      Return d (set_file
                  {| fobj := f2;
                     io_log := io_log (__file self) ++
                               [EvRead N (RRaise (IOError EINTR));
                                EvRead N (RBytes d)] |} self)) /\
  (forall budget, interrupts_bounded budget ->
     forall fuel, (budget (fobj (__file self)) + Z.to_nat N < fuel)%nat ->
       _read fuel N self <> Diverge).
Proof.
  split; [|split; [|split; [|split; [|split]]]].
  - intros fuel e self' E. apply dev_read_raise in E as (_ & _ & L).
    now apply _read_loop_raise in L.
  - intros fuel data c c'. apply _read_loop_eintr.
  - intros fuel data self' E. apply dev_read_return in E as (_ & _ & L).
    pose proof (_read_loop_return _ _ _ _ _ _ L) as (evs & Hlog & D & _ & S).
    exists evs. repeat split; auto.
    intros Hb HN. eapply _read_loop_at_most; [exact Hb| |exact L]. exact HN.
  - intros fuel data c r c'. apply _read_loop_short.
  - intros fuel f1 f2 d HN Hd E1 E2.
    cbn [_read DevURandomRNG_RNG]. unfold DevURandomRNG_read.
    assert (Hd0 : d <> []) by (intros ->; unfold len in Hd; simpl in Hd; lia).
    change (3 + fuel)%nat with (S (S (S fuel))).
    rewrite (_read_loop_eintr _ N [] (__file self)
               {| fobj := f1;
                  io_log := io_log (__file self) ++
                            [EvRead N (RRaise (IOError EINTR))] |});
      [|exact HN|].
    2:{ unfold chan_read. change (len []) with 0. rewrite Z.sub_0_r, E1.
        reflexivity. }
    rewrite (_read_loop_more _ N [] _ d
               {| fobj := f2;
                  io_log := (io_log (__file self) ++
                             [EvRead N (RRaise (IOError EINTR))]) ++
                            [EvRead N (RBytes d)] |});
      [|exact HN|exact Hd0|].
    2:{ unfold chan_read. change (len []) with 0. rewrite Z.sub_0_r.
        cbn [fobj io_log]. rewrite E2. reflexivity. }
    rewrite _read_loop_done by (rewrite app_nil_l; lia).
    rewrite <- app_assoc. reflexivity.
  - intros budget Hb fuel Hf. now apply (dev_read_terminates budget).
Qed.

(** The scenario on the scripted device: the first read is interrupted,
    the next two hand over the three bytes asked for. *)
Example interrupted_read_is_made_again :
  read 4 (PyInt 3) (mock_rng script_interrupted false) =
  Return (sample 2 x05 ++ sample 1 x06)
         (set_file
            (@mkChan (mock_dev script_interrupted chr_mode)
                     (mkMock [] chr_mode O)
                     [EvRead 3 (RRaise (IOError EINTR));
                      EvRead 3 (RBytes (sample 2 x05));
                      EvRead 1 (RBytes (sample 1 x06))])
            (mock_rng script_interrupted false)).
Proof. reflexivity. Qed.

(** ** What a call does to the file *)

Section Effects.
Context {P : Posix}.

(** The requests of the loop, whichever way it ends. *)
Lemma _read_loop_requests fuel : forall N data c c',
  final_state (_read_loop fuel N data c) = Some c' ->
  exists evs,
    io_log c' = io_log c ++ evs /\ requests_follow N data evs /\
    (len data < N -> exists r evs', evs = EvRead (N - len data) r :: evs').
Proof.
  induction fuel as [|fuel IH]; intros N data c c'; simpl; [discriminate|].
  destruct (Z.ltb_spec (len data) N) as [Hlt|Hge].
  2:{ intros [= <-]. exists []. rewrite app_nil_r. simpl.
      repeat split; auto. lia. }
  assert (Hk : 0 < N - len data) by lia.
  destruct (chan_read c (N - len data)) as [r c1] eqn:E.
  pose proof (chan_read_log _ _ _ _ E) as L.
  assert (Hstop : forall o : outcome chan bytes,
             final_state o = Some c1 ->
             final_state o = Some c' ->
             exists evs,
               io_log c' = io_log c ++ evs /\ requests_follow N data evs /\
               (len data < N ->
                exists r0 evs', evs = EvRead (N - len data) r0 :: evs')).
  { intros o H1 H2. rewrite H1 in H2. injection H2 as <-.
    exists [EvRead (N - len data) r]. simpl. repeat split; auto.
    intros _. now exists r, []. }
  assert (Hgo : forall held,
             held = data ++ handed r ->
             final_state (_read_loop fuel N held c1) = Some c' ->
             exists evs,
               io_log c' = io_log c ++ evs /\ requests_follow N data evs /\
               (len data < N ->
                exists r0 evs', evs = EvRead (N - len data) r0 :: evs')).
  { intros held -> H. apply IH in H as (evs & L' & Q & _).
    exists (EvRead (N - len data) r :: evs). simpl.
    rewrite L', L, <- app_assoc. repeat split; auto.
    intros _. now exists r, evs. }
  destruct r as [d0| |e].
  - destruct (len d0 =? 0); [now apply Hstop|]. now apply Hgo.
  - now apply Hstop.
  - destruct e as [m|m|m|m|errno|m]; try (now apply Hstop).
    destruct (errno =? EINTR); [|now apply Hstop].
    apply Hgo. simpl. now rewrite app_nil_r.
Qed.

Lemma requests_follow_bounds N : forall evs held,
  requests_follow N held evs ->
  Forall (fun ev => exists k r, ev = EvRead k r /\ 0 < k <= N) evs.
Proof.
  induction evs as [|[k r|] evs IH]; intros held; simpl.
  - constructor.
  - intros (Hk & Hpos & Q). constructor; [|now apply (IH _ Q)].
    exists k, r. pose proof (len_nonneg held). split; [reflexivity|lia].
  - contradiction.
Qed.

(** A successful loop that holds [N] bytes has used up no budget that a
    later call would miss. *)
Lemma _read_loop_budget budget :
  interrupts_bounded budget ->
  forall fuel N data c d c',
    _read_loop fuel N data c = Return d c' -> N <= len d ->
    (budget (fobj c') <= budget (fobj c))%nat.
Proof.
  intros [Hsig Hdat]. induction fuel as [|fuel IH]; intros N data c d c';
    simpl; [discriminate|].
  destruct (Z.ltb_spec (len data) N) as [Hlt|Hge];
    [|intros [= <- <-]; lia].
  destruct (chan_read c (N - len data)) as [[d0| |e] c1] eqn:E;
    apply chan_read_file in E.
  - destruct (len d0 =? 0); [intros [= <- <-]; lia|].
    intros H Hd. apply Hdat in E. specialize (IH _ _ _ _ _ H Hd). lia.
  - intros [= <- <-]. lia.
  - destruct e as [m|m|m|m|errno|m]; try discriminate.
    destruct (Z.eqb_spec errno EINTR) as [->|]; [|discriminate].
    intros H Hd. apply Hsig in E. specialize (IH _ _ _ _ _ H Hd). lia.
Qed.

(** What [read] does to the object, however it ends: it replaces the
    file by one whose log has more reads. *)
Lemma read_effect fuel N (self self' : DevURandomRNG) :
  final_state (read fuel N self) = Some self' ->
  self' = set_file (__file self') self /\
  exists evs,
    io_log (__file self') = io_log (__file self) ++ evs /\
    count_closes evs = O.
Proof.
  assert (Hsame : set_file (__file self) self = self)
    by (destruct self; reflexivity).
  assert (Hstay : Some self = Some self' ->
            self' = set_file (__file self') self /\
            exists evs,
              io_log (__file self') = io_log (__file self) ++ evs /\
              count_closes evs = O).
  { intros [= <-]. split; [now rewrite Hsame|].
    exists []. now rewrite app_nil_r. }
  destruct (closed self) eqn:Hc.
  { rewrite (read_closed _ _ _ Hc). exact Hstay. }
  destruct (as_integer N) as [n|] eqn:HN.
  2:{ rewrite (read_not_integer _ _ _ Hc HN). exact Hstay. }
  destruct (Z.ltb_spec n 0) as [Hneg|Hnn].
  { rewrite (read_negative _ _ _ _ Hc HN Hneg). exact Hstay. }
  destruct (Z.eq_dec n 0) as [->|Hn0].
  { rewrite (read_zero _ _ _ Hc HN). exact Hstay. }
  rewrite (read_positive _ _ _ _ Hc HN ltac:(lia)).
  cbn [_read DevURandomRNG_RNG name]. unfold DevURandomRNG_read.
  destruct (_read_loop fuel n [] (__file self)) as [data c|e c|] eqn:E;
    [| |discriminate].
  - apply _read_loop_return in E as (evs & L & _ & C & _).
    assert (H : Some (set_file c self) = Some self' ->
              self' = set_file (__file self') self /\
              exists evs0,
                io_log (__file self') = io_log (__file self) ++ evs0 /\
                count_closes evs0 = O).
    { intros [= <-]. split; [reflexivity|]. now exists evs. }
    destruct (len data =? n); exact H.
  - apply _read_loop_raise in E as (_ & evs & k & L & C).
    simpl. intros [= <-]. split; [reflexivity|].
    exists (evs ++ [EvRead k (RRaise e)]). split; [exact L|].
    rewrite count_closes_app, C. reflexivity.
Qed.

(** A [read] that returns: the object was open, [N] an integer that is
    not negative, and the result is what the device handed over during
    the call. *)
Lemma read_return_inversion fuel N (self self' : DevURandomRNG) data :
  read fuel N self = Return data self' ->
  closed self = false /\
  as_integer N = Some (len data) /\
  self' = set_file (__file self') self /\
  exists evs,
    io_log (__file self') = io_log (__file self) ++ evs /\
    data = delivered evs.
Proof.
  assert (Hsame : set_file (__file self) self = self)
    by (destruct self; reflexivity).
  destruct (closed self) eqn:Hc.
  { now rewrite (read_closed _ _ _ Hc). }
  destruct (as_integer N) as [n|] eqn:HN.
  2:{ now rewrite (read_not_integer _ _ _ Hc HN). }
  destruct (Z.ltb_spec n 0) as [Hneg|Hnn].
  { now rewrite (read_negative _ _ _ _ Hc HN Hneg). }
  destruct (Z.eq_dec n 0) as [->|Hn0].
  { rewrite (read_zero _ _ _ Hc HN). intros [= <- <-].
    repeat split; [now rewrite Hsame|]. exists []. now rewrite app_nil_r. }
  rewrite (read_positive _ _ _ _ Hc HN ltac:(lia)).
  cbn [_read DevURandomRNG_RNG name]. unfold DevURandomRNG_read.
  destruct (_read_loop fuel n [] (__file self)) as [d c|e c|] eqn:E;
    try discriminate.
  destruct (Z.eqb_spec (len d) n) as [Hlen|]; [|discriminate].
  intros [= <- <-]. apply _read_loop_return in E as (evs & L & D & _ & _).
  split; [reflexivity|]. split; [now rewrite Hlen|].
  split; [reflexivity|]. now exists evs.
Qed.
End Effects.

(** ** Further properties of the module *)

Section Further.
Context {P : Posix}.

(** What the self-test does to the object, however it ends. *)
Lemma _selftest_effect fuel (self self' : DevURandomRNG) :
  final_state (_selftest fuel self) = Some self' ->
  self' = set_file (__file self') self /\
  exists evs,
    io_log (__file self') = io_log (__file self) ++ evs /\
    count_closes evs = O.
Proof.
  unfold _selftest, bind.
  destruct (read fuel (PyInt 16) self) as [d1 s1|e s1|] eqn:E1;
    [| |discriminate].
  2:{ intros H. apply (read_effect fuel (PyInt 16)). now rewrite E1. }
  assert (F1 : final_state (read fuel (PyInt 16) self) = Some s1)
    by now rewrite E1.
  apply read_effect in F1 as (S1 & evs1 & L1 & C1).
  destruct (negb (len d1 =? 16)).
  { simpl. intros [= <-]. split; [exact S1|]. now exists evs1. }
  destruct (read fuel (PyInt 16) s1) as [d2 s2|e s2|] eqn:E2;
    [| |discriminate].
  - assert (F2 : final_state (read fuel (PyInt 16) s1) = Some s2)
      by now rewrite E2.
    apply read_effect in F2 as (S2 & evs2 & L2 & C2).
    assert (H : Some s2 = Some self' ->
              self' = set_file (__file self') self /\
              exists evs,
                io_log (__file self') = io_log (__file self) ++ evs /\
                count_closes evs = O).
    { intros [= <-]. split.
      - rewrite S2 at 1. rewrite S1. reflexivity.
      - exists (evs1 ++ evs2). rewrite L2, L1, app_assoc, count_closes_app.
        split; [reflexivity|lia]. }
    destruct (bytes_eqb d1 d2); exact H.
  - assert (F2 : final_state (read fuel (PyInt 16) s1) = Some s2)
      by now rewrite E2.
    apply read_effect in F2 as (S2 & evs2 & L2 & C2).
    simpl. intros [= <-]. split.
    + rewrite S2 at 1. rewrite S1. reflexivity.
    + exists (evs1 ++ evs2). rewrite L2, L1, app_assoc, count_closes_app.
      split; [reflexivity|lia].
Qed.

(** X1.  An object that comes out of the constructor was built on a file
    that [open] returned and that is a character device; it is open, it
    bears the device name, its file has not been closed, and the device
    has handed over 32 bytes, all used up by the self-test. *)
Theorem constructed_object_is_ready
  (fuel : nat) (devname : option string) (self : DevURandomRNG) :
  new fuel devname = Constructed self ->
  exists f0,
    py_open (device_name devname) = inr f0 /\
    S_ISCHR (fstat_mode f0) = true /\
    closed self = false /\ name self = device_name devname /\
    count_closes (io_log (__file self)) = O /\
    len (delivered (io_log (__file self))) = 32.
Proof.
  destruct (py_open (device_name devname)) as [e|f0] eqn:Ho.
  { unfold new, DevURandomRNG_init. now rewrite Ho. }
  destruct (S_ISCHR (fstat_mode f0)) eqn:Hm.
  2:{ unfold new, DevURandomRNG_init. rewrite Ho. cbn zeta. now rewrite Hm. }
  rewrite (new_on_character_device fuel devname f0 Ho Hm).
  rewrite _selftest_cases by reflexivity.
  cbn [__file name DevURandomRNG_RNG dev_name].
  destruct (_read_loop fuel 16 [] {| fobj := f0; io_log := [] |})
    as [d1 c1|e c1|] eqn:E1; try discriminate.
  destruct (Z.eqb_spec (len d1) 16) as [L1|]; [|discriminate].
  destruct (_read_loop fuel 16 [] c1) as [d2 c2|e c2|] eqn:E2;
    try discriminate.
  destruct (Z.eqb_spec (len d2) 16) as [L2|]; [|discriminate].
  destruct (bytes_eqb d1 d2); [discriminate|].
  intros [= <-]. exists f0.
  apply _read_loop_return in E1 as (evs1 & G1 & D1 & C1 & _).
  apply _read_loop_return in E2 as (evs2 & G2 & D2 & C2 & _).
  cbn [io_log app] in G1. cbn [app] in D1, D2.
  split; [reflexivity|]. split; [exact Hm|].
  split; [reflexivity|]. split; [reflexivity|].
  cbn [__file set_file]. rewrite G2, G1. split.
  - rewrite count_closes_app. lia.
  - rewrite delivered_app, len_app, <- D1, <- D2. lia.
Qed.

(** X2.  The constructor closes the file it opened when it rejects the
    device type, and only then: when the self-test fails the file is left
    open. *)
Theorem constructor_closes_only_rejected_devices
  (fuel : nat) (devname : option string) (f0 : file) (e : exn) (c : chan) :
  py_open (device_name devname) = inr f0 ->
  new fuel devname = CtorRaise e (Some c) ->
  count_closes (io_log c) =
  (if S_ISCHR (fstat_mode f0) then 0 else 1)%nat.
Proof.
  intros Ho. destruct (S_ISCHR (fstat_mode f0)) eqn:Hm.
  - rewrite (new_on_character_device fuel devname f0 Ho Hm).
    destruct (_selftest fuel _) as [u s|e0 s|] eqn:E; try discriminate.
    intros [= <- <-].
    assert (F : final_state
                  (_selftest fuel
                     {| dev_closed := false;
                        dev_name := device_name devname;
                        __file := {| fobj := f0; io_log := [] |} |})
                = Some s) by now rewrite E.
    apply _selftest_effect in F as (_ & evs & L & C).
    rewrite L. cbn [__file io_log app]. exact C.
  - unfold new, DevURandomRNG_init. rewrite Ho. cbn zeta. rewrite Hm.
    cbn [negb]. intros [= <- <-]. reflexivity.
Qed.

(** X3.  On a device that signals cannot interrupt for ever, the
    constructor ends, with an object or with an exception. *)
Theorem construction_terminates
  (budget : file -> nat) (fuel : nat) (devname : option string) :
  interrupts_bounded budget ->
  (forall f0, py_open (device_name devname) = inr f0 ->
              (budget f0 + 16 < fuel)%nat) ->
  new fuel devname <> CtorDiverge.
Proof.
  intros Hb Hfuel.
  destruct (py_open (device_name devname)) as [e|f0] eqn:Ho.
  { unfold new, DevURandomRNG_init. now rewrite Ho. }
  specialize (Hfuel f0 eq_refl).
  destruct (S_ISCHR (fstat_mode f0)) eqn:Hm.
  2:{ unfold new, DevURandomRNG_init. rewrite Ho. cbn zeta. now rewrite Hm. }
  rewrite (new_on_character_device fuel devname f0 Ho Hm).
  rewrite _selftest_cases by reflexivity.
  cbn [__file name DevURandomRNG_RNG dev_name].
  pose proof (_read_loop_terminates budget Hb fuel 16 []
                {| fobj := f0; io_log := [] |}) as T1.
  destruct (_read_loop fuel 16 [] {| fobj := f0; io_log := [] |})
    as [d1 c1|e c1|] eqn:E1; [|discriminate|].
  2:{ exfalso. apply T1; [|reflexivity]. simpl. exact Hfuel. }
  destruct (Z.eqb_spec (len d1) 16) as [L1|]; [|discriminate].
  pose proof (_read_loop_budget budget Hb _ _ _ _ _ _ E1 ltac:(lia)) as B.
  cbn [fobj] in B.
  pose proof (_read_loop_terminates budget Hb fuel 16 [] c1) as T2.
  destruct (_read_loop fuel 16 [] c1) as [d2 c2|e c2|]; [|discriminate|].
  2:{ exfalso. apply T2; [|reflexivity]. simpl. lia. }
  destruct (len d2 =? 16); [|discriminate].
  destruct (bytes_eqb d1 d2); discriminate.
Qed.

(** X4.  A [read(n)] with [n > 0] on an open object, however it ends,
    reads the device at least once; the first read asks for [n] bytes and
    every later one for what is still missing, so that no read asks for
    more than [n] bytes or for none. *)
Theorem read_asks_only_for_missing_bytes
  (fuel : nat) (N : PyVal) (n : Z) (self self' : DevURandomRNG) :
  as_integer N = Some n -> 0 < n -> closed self = false ->
  final_state (read fuel N self) = Some self' ->
  exists r evs,
    io_log (__file self') = io_log (__file self) ++ EvRead n r :: evs /\
    requests_follow n [] (EvRead n r :: evs) /\
    Forall (fun ev => exists k r0, ev = EvRead k r0 /\ 0 < k <= n)
           (EvRead n r :: evs).
Proof.
  intros HN Hn Hc. rewrite (read_positive _ _ _ _ Hc HN Hn).
  cbn [_read DevURandomRNG_RNG name]. unfold DevURandomRNG_read.
  intros F.
  assert (F' : final_state (_read_loop fuel n [] (__file self))
               = Some (__file self')).
  { destruct (_read_loop fuel n [] (__file self)) as [d c|e c|];
      [| |discriminate].
    - destruct (len d =? n); injection F as <-; reflexivity.
    - injection F as <-. reflexivity. }
  apply _read_loop_requests in F' as (evs & L & Q & First).
  change (len []) with 0 in First. rewrite Z.sub_0_r in First.
  destruct (First Hn) as (r & evs' & ->).
  exists r, evs'. split; [exact L|]. split; [exact Q|].
  exact (requests_follow_bounds n _ [] Q).
Qed.

(** X5.  Two reads that return, one after the other, return what the
    device handed over during the two calls, in order: no byte is kept
    back, lost or returned twice. *)
Theorem consecutive_reads_return_consecutive_bytes
  (fuel : nat) (N1 N2 : PyVal) (self s1 s2 : DevURandomRNG) (d1 d2 : bytes) :
  read fuel N1 self = Return d1 s1 ->
  read fuel N2 s1 = Return d2 s2 ->
  exists evs,
    io_log (__file s2) = io_log (__file self) ++ evs /\
    delivered evs = d1 ++ d2.
Proof.
  intros E1 E2.
  apply read_return_inversion in E1 as (_ & _ & _ & evs1 & L1 & D1).
  apply read_return_inversion in E2 as (_ & _ & _ & evs2 & L2 & D2).
  exists (evs1 ++ evs2). rewrite L2, L1, app_assoc, delivered_app.
  now subst.
Qed.

(** X7.  However a [read] ends and whatever its argument, it leaves
    [closed] and [name] as they were and only adds reads to the log of
    the file: it never closes the file. *)
Theorem read_only_appends_reads
  (fuel : nat) (N : PyVal) (self self' : DevURandomRNG) :
  final_state (read fuel N self) = Some self' ->
  closed self' = closed self /\ name self' = name self /\
  exists evs,
    io_log (__file self') = io_log (__file self) ++ evs /\
    count_closes evs = O.
Proof.
  intros F. apply read_effect in F as (S & evs & L & C).
  split; [now rewrite S|]. split; [now rewrite S|]. now exists evs.
Qed.

(** X8.  When [BaseRNG.__init__] raises, the object is left open with its
    file not closed; [__del__] then closes the file, once, and marks the
    object closed. *)
Theorem failed_selftest_is_closed_by_destructor
  (fuel : nat) (self self' : DevURandomRNG) (e : exn) :
  BaseRNG_init fuel self = Raise e self' ->
  closed self' = false /\
  count_closes (io_log (__file self')) = count_closes (io_log (__file self)) /\
  exists s2,
    __del__ self' = Return tt s2 /\ closed s2 = true /\
    io_log (__file s2) = io_log (__file self') ++ [EvClose].
Proof.
  unfold BaseRNG_init, bind at 1, modify. intros E.
  assert (F : final_state (_selftest fuel (set_closed false self))
              = Some self') by now rewrite E.
  apply _selftest_effect in F as (S & evs & L & C).
  assert (Hc : closed self' = false) by now rewrite S.
  split; [exact Hc|]. split.
  - rewrite L, count_closes_app, C. cbn [__file set_closed DevURandomRNG_RNG].
    lia.
  - eexists. split; [apply close_result|]. split; [reflexivity|].
    cbn [__file closed DevURandomRNG_RNG] in *. now rewrite Hc.
Qed.
End Further.

(** X6.  On an object of a class that overrides neither [_read] nor
    [_close], construction always raises [NotImplementedError], so does
    every [read(n)] with [n > 0], and so does [close], which leaves the
    object open. *)
Theorem abstract_methods_make_object_unusable (self : BareRNG) (fuel : nat) :
  BaseRNG_init fuel self =
  Raise (NotImplementedError "child class must implement this")
        (set_closed false self) /\
  (forall N n, as_integer N = Some n -> 0 < n -> closed self = false ->
     read fuel N self =
     Raise (NotImplementedError "child class must implement this") self) /\
  (closed self = false ->
     close self =
     Raise (NotImplementedError "child class must implement this") self).
Proof.
  split; [reflexivity|]. split.
  - intros N n HN Hn Hc. rewrite (read_positive _ _ _ _ Hc HN Hn). reflexivity.
  - intros Hc. unfold close, bind, get. cbn in *. now rewrite Hc.
Qed.

Lemma constructed_object_is_ready_witness :
  exists self,
    @new (mock_dev script_healthy chr_mode) 5 None = Constructed self /\
    exists f0,
      @py_open (mock_dev script_healthy chr_mode) (device_name None) = inr f0 /\
      S_ISCHR (@fstat_mode (mock_dev script_healthy chr_mode) f0) = true /\
      closed self = false /\ name self = device_name None /\
      count_closes (io_log (__file self)) = O /\
      len (delivered (io_log (__file self))) = 32.
Proof.
  eexists. split; [reflexivity|].
  apply (@constructed_object_is_ready
           (mock_dev script_healthy chr_mode) 5 None).
  reflexivity.
Defined.

Lemma constructor_closes_only_rejected_devices_witness :
  @py_open (mock_dev script_stuck chr_mode) (device_name None)
  = inr (mkMock script_stuck chr_mode O) /\
  exists e c,
    @new (mock_dev script_stuck chr_mode) 5 None = CtorRaise e (Some c) /\
    count_closes (io_log c) =
    (if S_ISCHR (@fstat_mode (mock_dev script_stuck chr_mode)
                             (mkMock script_stuck chr_mode O))
     then 0 else 1)%nat.
Proof.
  split; [reflexivity|]. eexists. eexists. split; [reflexivity|].
  eapply (@constructor_closes_only_rejected_devices
            (mock_dev script_stuck chr_mode) 5 None
            (mkMock script_stuck chr_mode O));
    reflexivity.
Defined.

Lemma construction_terminates_witness :
  @interrupts_bounded (mock_dev script_healthy chr_mode)
                      (fun f => List.length (script f)) /\
  (forall f0,
      @py_open (mock_dev script_healthy chr_mode) (device_name None) = inr f0 ->
      (List.length (script f0) + 16 < 21)%nat) /\
  @new (mock_dev script_healthy chr_mode) 21 None <> CtorDiverge.
Proof.
  assert (Hfuel : forall f0,
             @py_open (mock_dev script_healthy chr_mode) (device_name None)
             = inr f0 ->
             (List.length (script f0) + 16 < 21)%nat).
  { intros f0 H. injection H as <-. simpl. lia. }
  split; [apply mock_interrupts_bounded|]. split; [exact Hfuel|].
  apply (@construction_terminates
           (mock_dev script_healthy chr_mode)
           (fun f => List.length (script f)) 21 None
           (mock_interrupts_bounded (mock_fs script_healthy chr_mode)) Hfuel).
Defined.

Lemma read_asks_only_for_missing_bytes_witness :
  as_integer (PyInt 3) = Some 3 /\ 0 < 3 /\
  closed (mock_rng script_interrupted false) = false /\
  exists self',
    final_state (read 5 (PyInt 3) (mock_rng script_interrupted false))
    = Some self' /\
    exists r evs,
      io_log (__file self') =
      io_log (__file (mock_rng script_interrupted false))
      ++ EvRead 3 r :: evs /\
      requests_follow 3 [] (EvRead 3 r :: evs) /\
      Forall (fun ev => exists k r0, ev = EvRead k r0 /\ 0 < k <= 3)
             (EvRead 3 r :: evs).
Proof.
  split; [reflexivity|]. split; [lia|]. split; [reflexivity|].
  eexists. split; [reflexivity|].
  apply (read_asks_only_for_missing_bytes
           5 (PyInt 3) 3 (mock_rng script_interrupted false));
    [reflexivity | lia | reflexivity | reflexivity].
Defined.

Lemma consecutive_reads_return_consecutive_bytes_witness :
  exists s1 s2,
    read 5 (PyInt 2) (mock_rng script_interrupted false)
    = Return (sample 2 x05) s1 /\
    read 5 (PyInt 1) s1 = Return (sample 1 x06) s2 /\
    exists evs,
      io_log (__file s2) =
      io_log (__file (mock_rng script_interrupted false)) ++ evs /\
      delivered evs = sample 2 x05 ++ sample 1 x06.
Proof.
  eexists. eexists. split; [reflexivity|]. split; [reflexivity|].
  eapply (consecutive_reads_return_consecutive_bytes
            5 (PyInt 2) (PyInt 1) (mock_rng script_interrupted false));
    reflexivity.
Defined.

Lemma read_only_appends_reads_witness :
  exists self',
    final_state (read 5 (PyInt 4) (mock_rng script_interrupted false))
    = Some self' /\
    closed self' = closed (mock_rng script_interrupted false) /\
    name self' = name (mock_rng script_interrupted false) /\
    exists evs,
      io_log (__file self') =
      io_log (__file (mock_rng script_interrupted false)) ++ evs /\
      count_closes evs = O.
Proof.
  eexists. split; [reflexivity|].
  apply (read_only_appends_reads
           5 (PyInt 4) (mock_rng script_interrupted false)).
  reflexivity.
Defined.

Lemma failed_selftest_is_closed_by_destructor_witness :
  exists e self',
    BaseRNG_init 5 (mock_rng script_stuck true) = Raise e self' /\
    closed self' = false /\
    count_closes (io_log (__file self')) =
    count_closes (io_log (__file (mock_rng script_stuck true))) /\
    exists s2,
      __del__ self' = Return tt s2 /\ closed s2 = true /\
      io_log (__file s2) = io_log (__file self') ++ [EvClose].
Proof.
  eexists. eexists. split; [reflexivity|].
  eapply (failed_selftest_is_closed_by_destructor
            5 (mock_rng script_stuck true)).
  reflexivity.
Defined.
